(** * StreamPay: the escrow contract [StreamPayEscrow] and the relayer
    endpoint [executePayment].

    The contract (Solidity ^0.8.20, in src/web3-apis/utility.js) is embedded
    as a state-and-revert monad over the contract storage, with a log of the
    storage writes, [require] checks and token calls performed, in the order
    the code performs them.  A transaction that reverts leaves the storage
    as it was (EVM semantics).  The relayer (src/web3-apis/payment.js) is
    embedded over a small model of the JSON values of the request body. *)

From Stdlib Require Import ZArith List String Bool Ascii Lia DecimalZ.
Import ListNotations.
Open Scope Z_scope.

Module Escrow.

Definition address := Z.
Definition bytes32 := Z.

(** [type(uint256).max] *)
Definition UINT256_MAX : Z := 2 ^ 256 - 1.

Definition uint256_ok (x : Z) : bool := (0 <=? x) && (x <=? UINT256_MAX).

(** [struct PaymentIntent]; the [bytes signature] is kept opaque as a number. *)
Record PaymentIntent := mkIntent {
  payer : address;
  sessionId : bytes32;
  amount : Z;
  deadline : Z;
  nonce : Z;
  signature : Z
}.

(** The failures of OpenZeppelin's [ECDSA.tryRecover] ([RecoverError]
    other than [NoError]). *)
Inductive RecoverError :=
| InvalidSignature
| InvalidSignatureLength (length : Z)
| InvalidSignatureS (s : Z).

(** The hashing and ECDSA recovery of OpenZeppelin's [EIP712] and [ECDSA]:
    [keccak_struct] is [keccak256(abi.encode(TYPEHASH, payer, sessionId,
    amount, deadline, nonce))]; [tryRecover] is [ECDSA.tryRecover]: the
    recovered signer, or the error of a signature that does not recover
    (wrong length, high [s], or no signer). *)
Class Crypto := {
  keccak_struct : address -> bytes32 -> Z -> Z -> Z -> bytes32;
  hashTypedDataV4 : bytes32 -> bytes32;
  tryRecover : bytes32 -> Z -> address + RecoverError
}.

(** The USDC token behind [IERC20]/[SafeERC20]: [None] is a failed
    transfer, on which [safeTransfer]/[safeTransferFrom] revert. *)
Class Token (T : Type) := {
  tok_transferFrom : T -> address -> address -> Z -> option T;
  tok_transfer : T -> address -> address -> Z -> option T
}.

Definition NOT_ENTERED : Z := 1.
Definition ENTERED : Z := 2.

(** Solidity [mapping]s are total functions with default 0 / false. *)
Definition upd {K V : Type} (eqb : K -> K -> bool) (m : K -> V) (k : K) (v : V)
  : K -> V := fun k' => if eqb k k' then v else m k'.

(** Log of what an execution does, in order. *)
Inductive ev :=
| EvCheck (msg : string)
| EvWriteStatus
| EvWriteBalance (a : address)
| EvWriteNonce (a : address)
| EvWriteSettled (sid : bytes32)
| EvTransfer (from to : address) (amt : Z)
| EvEmit (name : string).

Section Contract.

Context {T : Type} `{Token T} `{Crypto}.

(** The immutables [address(this)] and [serviceWallet]. *)
Variable self serviceWallet : address.

Record State := mkState {
  escrowBalances : address -> Z;
  nonces : address -> Z;
  settledSessions : bytes32 -> bool;
  status : Z;
  usdc : T
}.

(** [constructor]: every mapping empty, guard not entered. *)
Definition init_state (tok : T) : State :=
  mkState (fun _ => 0) (fun _ => 0) (fun _ => false) NOT_ENTERED tok.

Inductive res (A : Type) :=
| ROk (x : A) (s : State)
| RRevert (msg : string).
Arguments ROk {A}.
Arguments RRevert {A}.

Definition M (A : Type) := State -> list ev * res A.

Definition ret {A} (x : A) : M A := fun s => ([], ROk x s).

Definition bind {A B} (m : M A) (k : A -> M B) : M B := fun s =>
  match m s with
  | (l1, ROk x s1) => let (l2, r) := k x s1 in (l1 ++ l2, r)
  | (l1, RRevert e) => (l1, RRevert e)
  end.

Local Notation "x <- m ;; k" := (bind m (fun x => k))
  (at level 61, m at next level, right associativity).
Local Notation "m ;; k" := (bind m (fun _ => k))
  (at level 61, right associativity).

Definition get : M State := fun s => ([], ROk s s).

Definition revert {A} (msg : string) : M A := fun _ => ([], RRevert msg).

Definition require (b : bool) (msg : string) : M unit := fun s =>
  ([EvCheck msg], if b then ROk tt s else RRevert msg).

Definition put_status (v : Z) : M unit := fun s =>
  ([EvWriteStatus], ROk tt (mkState (escrowBalances s) (nonces s)
                                    (settledSessions s) v (usdc s))).

Definition put_balance (a : address) (v : Z) : M unit := fun s =>
  ([EvWriteBalance a],
   ROk tt (mkState (upd Z.eqb (escrowBalances s) a v) (nonces s)
                   (settledSessions s) (status s) (usdc s))).

Definition put_nonce (a : address) (v : Z) : M unit := fun s =>
  ([EvWriteNonce a],
   ROk tt (mkState (escrowBalances s) (upd Z.eqb (nonces s) a v)
                   (settledSessions s) (status s) (usdc s))).

Definition put_settled (sid : bytes32) (b : bool) : M unit := fun s =>
  ([EvWriteSettled sid],
   ROk tt (mkState (escrowBalances s) (nonces s)
                   (upd Z.eqb (settledSessions s) sid b) (status s) (usdc s))).

Definition emit (name : string) : M unit := fun s => ([EvEmit name], ROk tt s).

(** Checked arithmetic of Solidity 0.8: overflow / underflow panics. *)
Definition checked_add (x y : Z) : M Z :=
  if x + y <=? UINT256_MAX then ret (x + y) else revert "Panic(0x11)".

Definition checked_sub (x y : Z) : M Z :=
  if 0 <=? x - y then ret (x - y) else revert "Panic(0x11)".

Definition safeTransferFrom (from to : address) (amt : Z) : M unit := fun s =>
  ([EvTransfer from to amt],
   match tok_transferFrom (usdc s) from to amt with
   | Some t => ROk tt (mkState (escrowBalances s) (nonces s)
                               (settledSessions s) (status s) t)
   | None => RRevert "SafeERC20FailedOperation"
   end).

Definition safeTransfer (to : address) (amt : Z) : M unit := fun s =>
  ([EvTransfer self to amt],
   match tok_transfer (usdc s) self to amt with
   | Some t => ROk tt (mkState (escrowBalances s) (nonces s)
                               (settledSessions s) (status s) t)
   | None => RRevert "SafeERC20FailedOperation"
   end).

(** [ECDSA._throwError]: the custom error each failure reverts with. *)
Definition recover_error_msg (e : RecoverError) : string :=
  match e with
  | InvalidSignature => "ECDSAInvalidSignature"%string
  | InvalidSignatureLength _ => "ECDSAInvalidSignatureLength"%string
  | InvalidSignatureS _ => "ECDSAInvalidSignatureS"%string
  end.

(** [digest.recover(signature)]: [tryRecover], then [_throwError]. *)
Definition recover_m (digest : bytes32) (sig : Z) : M address :=
  match tryRecover digest sig with
  | inl a => ret a
  | inr e => revert (recover_error_msg e)
  end.

(** [modifier nonReentrant] *)
Definition nonReentrant (body : M unit) : M unit :=
  s <- get;;
  require (negb (status s =? ENTERED)) "ReentrancyGuard: reentrant call";;
  put_status ENTERED;;
  body;;
  put_status NOT_ENTERED.

(** [function deposit(uint256 amount)] *)
Definition deposit (sender : address) (amt : Z) : M unit :=
  nonReentrant (
    require (amt >? 0) "Amount must be > 0";;
    safeTransferFrom sender self amt;;
    s <- get;;
    nb <- checked_add (escrowBalances s sender) amt;;
    put_balance sender nb;;
    emit "Deposited").

(** [function withdraw(uint256 amount)] *)
Definition withdraw (sender : address) (amt : Z) : M unit :=
  nonReentrant (
    require (amt >? 0) "Amount must be > 0";;
    s <- get;;
    require (amt <=? escrowBalances s sender) "Insufficient balance";;
    s <- get;;
    nb <- checked_sub (escrowBalances s sender) amt;;
    put_balance sender nb;;
    safeTransfer sender amt;;
    emit "Withdrawn").

(** [function executePaymentIntent(PaymentIntent intent, string serviceType)] *)
Definition executePaymentIntent (now : Z) (intent : PaymentIntent)
  (serviceType : string) : M unit :=
  nonReentrant (
    require (now <=? deadline intent) "Intent expired";;
    s <- get;;
    require (negb (settledSessions s (sessionId intent))) "Already settled";;
    let structHash := keccak_struct (payer intent) (sessionId intent)
                        (amount intent) (deadline intent) (nonce intent) in
    let digest := hashTypedDataV4 structHash in
    signer <- recover_m digest (signature intent);;
    require (signer =? payer intent) "Invalid signature";;
    s <- get;;
    require (nonce intent =? nonces s (payer intent)) "Invalid nonce";;
    s <- get;;
    n1 <- checked_add (nonces s (payer intent)) 1;;
    put_nonce (payer intent) n1;;
    put_settled (sessionId intent) true;;
    s <- get;;
    require (amount intent <=? escrowBalances s (payer intent))
            "Insufficient balance";;
    s <- get;;
    nb <- checked_sub (escrowBalances s (payer intent)) (amount intent);;
    put_balance (payer intent) nb;;
    safeTransfer serviceWallet (amount intent);;
    emit "PaymentExecuted").

(** The calls of the contract's external interface that change storage. *)
Inductive Call :=
| CDeposit (amt : Z)
| CWithdraw (amt : Z)
| CExecute (intent : PaymentIntent) (serviceType : string).

(** A transaction: [msg.sender], [block.timestamp] and the call. *)
Record Tx := mkTx { tx_sender : address; tx_time : Z; tx_call : Call }.

(** ABI-decoded [uint256] arguments lie in [0, 2^256). *)
Definition abi_ok (c : Call) : bool :=
  match c with
  | CDeposit a | CWithdraw a => uint256_ok a
  | CExecute i _ =>
      uint256_ok (amount i) && uint256_ok (deadline i) && uint256_ok (nonce i)
  end.

Definition dispatch (tx : Tx) : M unit :=
  if abi_ok (tx_call tx) then
    match tx_call tx with
    | CDeposit a => deposit (tx_sender tx) a
    | CWithdraw a => withdraw (tx_sender tx) a
    | CExecute i st => executePaymentIntent (tx_time tx) i st
    end
  else revert "ABI decoding".

Inductive outcome := Success | Reverted (msg : string).

(** A top-level transaction: a revert discards every write. *)
Definition exec_tx (s : State) (tx : Tx) : State * outcome :=
  match dispatch tx s with
  | (_, ROk _ s') => (s', Success)
  | (_, RRevert m) => (s, Reverted m)
  end.

(** A sequence of transactions: each one with its outcome and the state
    after it, and the final state. *)
Fixpoint run (s : State) (txs : list Tx) : list (Tx * outcome * State) * State :=
  match txs with
  | [] => ([], s)
  | tx :: rest =>
      let (s1, o) := exec_tx s tx in
      let (h, sf) := run s1 rest in
      ((tx, o, s1) :: h, sf)
  end.

(** [constructor(address _usdcToken, address _serviceWallet)]: the token is
    named by its address and given by its state [tok]. *)
Definition constructor (usdcToken _serviceWallet : address) (tok : T) : res unit :=
  if usdcToken =? 0 then RRevert "Invalid USDC address"
  else if _serviceWallet =? 0 then RRevert "Invalid service wallet"
  else ROk tt (init_state tok).

(** [function getNonce(address user) external view returns (uint256)] *)
Definition getNonce (user : address) : M Z :=
  s <- get;;
  ret (nonces s user).

End Contract.

End Escrow.

(** * The relayer endpoint [executePayment] (src/web3-apis/payment.js). *)
Module Relayer.
Import Escrow.
Local Open Scope string_scope.
Local Set Warnings "-register-all".

(** The JSON values a request body can carry (numbers of the body are
    integers here). *)
Inductive jsval :=
| JUndefined
| JNull
| JBool (b : bool)
| JNum (n : Z)
| JStr (s : string)
| JArr (l : list jsval)
| JObj (fields : list (string * jsval)).

(** JavaScript truthiness, as used by [!paymentIntent || !serviceType]. *)
Definition truthy (v : jsval) : bool :=
  match v with
  | JUndefined | JNull => false
  | JBool b => b
  | JNum n => negb (Z.eqb n 0)
  | JStr s => negb (String.eqb s "")
  | JArr _ | JObj _ => true
  end.

Fixpoint lookup (k : string) (fs : list (string * jsval)) : option jsval :=
  match fs with
  | [] => None
  | (k', v) :: rest => if String.eqb k k' then Some v else lookup k rest
  end.

(** Property access [v.k] on a parsed JSON value. *)
Definition get_field (v : jsval) (k : string) : jsval :=
  match v with
  | JObj fs => match lookup k fs with Some x => x | None => JUndefined end
  | _ => JUndefined
  end.

(** [typeof v === 'string' || typeof v === 'number'] *)
Definition is_str_or_num (v : jsval) : bool :=
  match v with JNum _ | JStr _ => true | _ => false end.

(** Decimal rendering of an integer ([Number.prototype.toString]). *)
Fixpoint uint_to_string (d : Decimal.uint) : string :=
  match d with
  | Decimal.Nil => ""
  | Decimal.D0 d => String "0" (uint_to_string d)
  | Decimal.D1 d => String "1" (uint_to_string d)
  | Decimal.D2 d => String "2" (uint_to_string d)
  | Decimal.D3 d => String "3" (uint_to_string d)
  | Decimal.D4 d => String "4" (uint_to_string d)
  | Decimal.D5 d => String "5" (uint_to_string d)
  | Decimal.D6 d => String "6" (uint_to_string d)
  | Decimal.D7 d => String "7" (uint_to_string d)
  | Decimal.D8 d => String "8" (uint_to_string d)
  | Decimal.D9 d => String "9" (uint_to_string d)
  end.

Definition Z_to_string (n : Z) : string :=
  match Z.to_int n with
  | Decimal.Pos d => uint_to_string d
  | Decimal.Neg d => String "-" (uint_to_string d)
  end.

(** [ToString] of an array element inside [Array.prototype.join]
    ([None]: TypeError; an object with an own, non-callable [toString]
    has no primitive value). *)
Fixpoint elem_to_string (v : jsval) : option string :=
  match v with
  | JUndefined | JNull => Some ""
  | JBool true => Some "true"
  | JBool false => Some "false"
  | JNum n => Some (Z_to_string n)
  | JStr s => Some s
  | JArr l =>
      (fix join (l : list jsval) : option string :=
         match l with
         | [] => Some ""
         | [x] => elem_to_string x
         | x :: rest =>
             match elem_to_string x, join rest with
             | Some a, Some b => Some (a ++ "," ++ b)
             | _, _ => None
             end
         end) l
  | JObj fs =>
      match lookup "toString" fs with
      | Some _ => None
      | None => Some "[object Object]"
      end
  end.

(** Outcome of [v?.toString?.()]: a string, [undefined], or a thrown
    TypeError. *)
Inductive call_res := CRStr (s : string) | CRUndef | CRThrow.

Definition opt_toString (v : jsval) : call_res :=
  match v with
  | JUndefined | JNull => CRUndef
  | JObj fs =>
      match lookup "toString" fs with
      | Some (JUndefined | JNull) => CRUndef
      | Some _ => CRThrow
      | None => CRStr "[object Object]"
      end
  | _ => match elem_to_string v with Some s => CRStr s | None => CRThrow end
  end.

Definition is_ws (c : ascii) : bool :=
  let n := nat_of_ascii c in
  ((9 <=? n) && (n <=? 13))%nat || (n =? 32)%nat.

Fixpoint drop_ws (l : list ascii) : list ascii :=
  match l with
  | c :: r => if is_ws c then drop_ws r else l
  | [] => []
  end.

(** [String.prototype.trim] on the ASCII white space. *)
Definition trim (l : list ascii) : list ascii := rev (drop_ws (rev (drop_ws l))).

Definition digit_val (c : ascii) : option Z :=
  let n := Z.of_nat (nat_of_ascii c) in
  if ((48 <=? n) && (n <=? 57))%Z then Some (n - 48)
  else if ((97 <=? n) && (n <=? 102))%Z then Some (n - 87)
  else if ((65 <=? n) && (n <=? 70))%Z then Some (n - 55)
  else None.

Fixpoint digits_val (base : Z) (l : list ascii) (acc : Z) : option Z :=
  match l with
  | [] => Some acc
  | c :: r =>
      match digit_val c with
      | Some d => if (d <? base)%Z then digits_val base r (acc * base + d) else None
      | None => None
      end
  end.

(** A non-empty digit string in [base]. *)
Definition digits (base : Z) (l : list ascii) : option Z :=
  match l with [] => None | _ => digits_val base l 0 end.

(** [StringToBigInt] (ECMA-262): trimmed; empty is 0; a [0x]/[0o]/[0b]
    prefix selects the radix (no sign then); otherwise an optional sign and
    decimal digits.  [None] is the SyntaxError thrown by [BigInt]. *)
Definition StringToBigInt (s : string) : option Z :=
  match trim (list_ascii_of_string s) with
  | [] => Some 0
  | "0" :: ("x" | "X") :: r => digits 16 r
  | "0" :: ("o" | "O") :: r => digits 8 r
  | "0" :: ("b" | "B") :: r => digits 2 r
  | "-" :: r => option_map Z.opp (digits 10 r)
  | "+" :: r => digits 10 r
  | l => digits 10 l
  end%char.

(** [BigInt(v)] for a number or a string. *)
Definition js_BigInt (v : jsval) : option Z :=
  match v with
  | JNum n => Some n
  | JStr s => StringToBigInt s
  | _ => None
  end.

(** [typeof v === 'string' || typeof v === 'number' ? BigInt(v)
     : BigInt(v?.toString?.() ?? 0)]; [None] is a thrown exception. *)
Definition normalize_big (v : jsval) : option Z :=
  if is_str_or_num v then js_BigInt v
  else match opt_toString v with
       | CRStr s => StringToBigInt s
       | CRUndef => Some 0
       | CRThrow => None
       end.

(** The ABI encoding done by ethers before a call: [None] is the error it
    throws (bad address, bad bytes32, bad bytes). *)
Class Abi := {
  enc_address : jsval -> option address;
  enc_bytes32 : jsval -> option bytes32;
  enc_bytes : jsval -> option Z
}.

Definition enc_uint256 (n : Z) : option Z := if uint256_ok n then Some n else None.

Definition enc_string (v : jsval) : option string :=
  match v with JStr s => Some s | _ => None end.

(** The contract calls the relayer makes, in order. *)
Inductive ledger_call :=
| ReadBalance (a : address)
| ReadSettled (sid : bytes32)
| Submit (i : PaymentIntent) (serviceType : string).

(** The HTTP responses of [executePayment]. *)
Inductive response :=
| RMissingFields                                  (* 400 Missing required fields *)
| RInsufficient (balance required : Z)            (* 400 Insufficient escrow balance *)
| RAlreadySettled                                 (* 400 Session already settled *)
| RSuccess (amount : Z) (serviceType : jsval) (metadata : jsval)
| RError (msg : string).                          (* 500, from the catch *)

(** [req.body] *)
Record body := mkBody { b_paymentIntent : jsval; b_serviceType : jsval; b_metadata : jsval }.

Section Endpoint.

Context {T : Type} `{Token T} `{Crypto} `{Abi}.

(** [address(this)], the service wallet, the relayer wallet, and the
    [block.timestamp] at which the submitted transaction executes. *)
Variable self serviceWallet relayer : address.
Variable now : Z.

Definition executePayment (s : @State T) (req : body)
  : list ledger_call * response * @State T :=
  let pi := b_paymentIntent req in
  let st := b_serviceType req in
  if negb (truthy pi) || negb (truthy st) then ([], RMissingFields, s) else
  match normalize_big (get_field pi "amount") with
  | None => ([], RError "BigInt conversion", s)
  | Some normalizedAmount =>
  match enc_address (get_field pi "payer") with
  | None => ([], RError "invalid address", s)
  | Some p =>
  let balance := escrowBalances s p in
  if (balance <? normalizedAmount)%Z
  then ([ReadBalance p], RInsufficient balance normalizedAmount, s) else
  match enc_bytes32 (get_field pi "sessionId") with
  | None => ([ReadBalance p], RError "invalid bytes32", s)
  | Some sid =>
  if settledSessions s sid
  then ([ReadBalance p; ReadSettled sid], RAlreadySettled, s) else
  let reads := [ReadBalance p; ReadSettled sid] in
  match normalize_big (get_field pi "deadline"),
        normalize_big (get_field pi "nonce") with
  | Some dl, Some nc =>
    match enc_uint256 normalizedAmount, enc_uint256 dl, enc_uint256 nc,
          enc_bytes (get_field pi "signature"), enc_string st with
    | Some a, Some d, Some n, Some sg, Some sty =>
        let intent := mkIntent p sid a d n sg in
        let (s', o) := exec_tx self serviceWallet s
                         (mkTx relayer now (CExecute intent sty)) in
        match o with
        | Success =>
            ((reads ++ [Submit intent sty])%list, RSuccess a st (b_metadata req), s')
        | Reverted m => ((reads ++ [Submit intent sty])%list, RError m, s)
        end
    | _, _, _, _, _ => (reads, RError "ABI encoding", s)
    end
  | _, _ => (reads, RError "BigInt conversion", s)
  end
  end
  end
  end.

End Endpoint.

(** The responses of the [getNonce] endpoint. *)
Inductive nonce_response :=
| NonceOk (address : string) (nonce : string)     (* 200 { address, nonce } *)
| NonceError.                                     (* 500, from the catch *)

Section Utility.

Context {T : Type} `{Abi}.

(** [async function getNonce(req, res)] on [req.params.address]: the
    address is ABI-encoded by ethers for [contract.getNonce], and the
    returned [uint256] is rendered with [toString()]. *)
Definition getNonce (s : @State T) (address : string) : nonce_response :=
  match enc_address (JStr address) with
  | None => NonceError
  | Some a =>
      match Escrow.getNonce a s with
      | (_, @ROk _ _ n _) => NonceOk address (Z_to_string n)
      | (_, @RRevert _ _ _) => NonceError
      end
  end.

End Utility.

End Relayer.

(** * Observations on executions of the contract, used to state its
    properties. *)
Module Observe.
Import Escrow.

Section Obs.

Context {T : Type} `{Token T} `{Crypto}.
Variable self serviceWallet : address.

(** The storage after a successful [executePaymentIntent]. *)
Definition settle_post (s : @State T) (i : PaymentIntent) (t : T) : @State T :=
  mkState (upd Z.eqb (escrowBalances s) (payer i)
             (escrowBalances s (payer i) - amount i))
          (upd Z.eqb (nonces s) (payer i) (nonces s (payer i) + 1))
          (upd Z.eqb (settledSessions s) (sessionId i) true)
          NOT_ENTERED t.

Definition sig_ok (i : PaymentIntent) : Prop :=
  tryRecover (hashTypedDataV4 (keccak_struct (payer i) (sessionId i) (amount i)
                                 (deadline i) (nonce i))) (signature i)
  = inl (payer i).

Definition is_success (o : outcome) : bool :=
  match o with Success => true | Reverted _ => false end.

(** Sum of [f] over the successful transactions of a history. *)
Fixpoint sum_success (f : Tx -> Z) (h : list (Tx * outcome * @State T)) : Z :=
  match h with
  | [] => 0
  | (tx, o, _) :: r => (if is_success o then f tx else 0) + sum_success f r
  end.

Definition deposited (a : address) (tx : Tx) : Z :=
  match tx_call tx with
  | CDeposit x => if tx_sender tx =? a then x else 0
  | _ => 0
  end.

Definition withdrawn (a : address) (tx : Tx) : Z :=
  match tx_call tx with
  | CWithdraw x => if tx_sender tx =? a then x else 0
  | _ => 0
  end.

Definition settled_amount (a : address) (tx : Tx) : Z :=
  match tx_call tx with
  | CExecute i _ => if payer i =? a then amount i else 0
  | _ => 0
  end.

Definition settlements_of (a : address) (tx : Tx) : Z :=
  match tx_call tx with
  | CExecute i _ => if payer i =? a then 1 else 0
  | _ => 0
  end.

Definition settlements_for (sid : bytes32) (tx : Tx) : Z :=
  match tx_call tx with
  | CExecute i _ => if sessionId i =? sid then 1 else 0
  | _ => 0
  end.


(** The log of a transaction's execution. *)
Definition exec_log (s : @State T) (tx : Tx) : list ev :=
  fst (dispatch self serviceWallet tx s).

End Obs.

(** The five validation checks of a settlement, by their revert message. *)
Definition validation_check (e : ev) : bool :=
  match e with
  | EvCheck m =>
      existsb (String.eqb m)
        ["Intent expired"; "Already settled"; "Invalid signature";
         "Invalid nonce"; "Insufficient balance"]%string
  | _ => false
  end.

(** A state effect: a balance, nonce or session write, or a token transfer. *)
Definition state_effect (e : ev) : bool :=
  match e with
  | EvWriteBalance _ | EvWriteNonce _ | EvWriteSettled _ | EvTransfer _ _ _ => true
  | _ => false
  end.

(** Checks-then-effects: no validation check follows a state effect. *)
Fixpoint checks_then_effects (l : list ev) : bool :=
  match l with
  | [] => true
  | e :: r =>
      (negb (state_effect e) || forallb (fun e' => negb (validation_check e')) r)
      && checks_then_effects r
  end.

End Observe.

(** * A concrete deployment, to run the contract and the relayer on
    concrete inputs: a token whose state is the map of USDC balances, a toy
    signature scheme in which a signature names its signer, and an ABI
    encoder that reads addresses and byte strings as numerals. *)
Module Demo.
Import Escrow Relayer.

Definition usdc_balances := address -> Z.

#[export] Instance demo_token : Token usdc_balances := {|
  tok_transferFrom t from to amt :=
    if (0 <=? amt) && (amt <=? t from)
    then Some (upd Z.eqb (upd Z.eqb t from (t from - amt)) to
                 (upd Z.eqb t from (t from - amt) to + amt))
    else None;
  tok_transfer t from to amt :=
    if (0 <=? amt) && (amt <=? t from)
    then Some (upd Z.eqb (upd Z.eqb t from (t from - amt)) to
                 (upd Z.eqb t from (t from - amt) to + amt))
    else None
|}.

#[export] Instance demo_crypto : Crypto := {|
  keccak_struct p sid a d n := p + 3 * sid + 5 * a + 7 * d + 11 * n;
  hashTypedDataV4 h := h + 13;
  tryRecover digest sg := if sg =? 0 then inr InvalidSignature else inl sg
|}.

Definition numeral (v : jsval) (bound : Z) : option Z :=
  match v with
  | JStr s =>
      if String.eqb s "" then None else
      match StringToBigInt s with
      | Some n => if (0 <=? n) && (n <? bound) then Some n else None
      | None => None
      end
  | _ => None
  end.

#[export] Instance demo_abi : Abi := {|
  enc_address v := numeral v (2 ^ 160);
  enc_bytes32 v := numeral v (2 ^ 256);
  enc_bytes v := numeral v (2 ^ 256)
|}.

Definition escrow_addr : address := 229.   (* 0xe5 *)
Definition service_addr : address := 94.   (* 0x5e *)
Definition relayer_addr : address := 126.  (* 0x7e *)
Definition alice : address := 161.         (* 0xa1 *)
Definition session1 : bytes32 := 81.       (* 0x51 *)

(** Alice has 1000 in escrow and nonce 0; the contract holds the 1000. *)
Definition demo_state : @State usdc_balances :=
  mkState (fun a => if a =? alice then 1000 else 0) (fun _ => 0)
          (fun _ => false) NOT_ENTERED
          (fun a => if a =? escrow_addr then 1000 else 0).

(** Alice's intent: 100 for session 0x51, deadline 2000, nonce 0. *)
Definition intent1 : PaymentIntent := mkIntent alice session1 100 2000 0 alice.

Definition intent_json (amount deadline : jsval) (sid : string) : jsval :=
  JObj [("payer", JStr "0xa1"); ("sessionId", JStr sid);
        ("amount", amount); ("deadline", deadline);
        ("nonce", JNum 0); ("signature", JStr "0xa1")]%string.

Definition request (amount deadline : jsval) (sid : string) : body :=
  mkBody (intent_json amount deadline sid) (JStr "ai") JUndefined.


(** The relayer submits Alice's intent at time 1500. *)
Definition tx1 : Tx := mkTx relayer_addr 1500 (CExecute intent1 "ai"%string).

Definition after_first : @State usdc_balances :=
  fst (exec_tx escrow_addr service_addr demo_state tx1).

(** The token balances after the contract pays 100 to the service wallet. *)
Definition demo_paid : usdc_balances :=
  match tok_transfer (usdc demo_state) escrow_addr service_addr 100 with
  | Some t => t
  | None => usdc demo_state
  end.

(** Alice also holds 500 USDC in her wallet. *)
Definition funded_state : @State usdc_balances :=
  mkState (escrowBalances demo_state) (nonces demo_state)
          (settledSessions demo_state) NOT_ENTERED
          (fun a => if a =? alice then 500
                    else if a =? escrow_addr then 1000 else 0).

(** Alice's escrow balance is [type(uint256).max] and she holds 1 USDC. *)
Definition full_state : @State usdc_balances :=
  mkState (fun a => if a =? alice then UINT256_MAX else 0) (fun _ => 0)
          (fun _ => false) NOT_ENTERED
          (fun a => if a =? alice then 1
                    else if a =? escrow_addr then UINT256_MAX else 0).

(** The token balances after Alice's 1 USDC is pulled into the contract. *)
Definition overflow_pulled : usdc_balances :=
  match tok_transferFrom (usdc full_state) alice escrow_addr 1 with
  | Some t => t
  | None => usdc full_state
  end.

(** Alice deposits 200 of her wallet's 500. *)
Definition deposited_state : @State usdc_balances :=
  fst (exec_tx escrow_addr service_addr funded_state
         (mkTx alice 1500 (CDeposit 200))).

(** The token balances after the contract pays Alice's 200 back. *)
Definition refunded : usdc_balances :=
  match tok_transfer (usdc deposited_state) escrow_addr alice 200 with
  | Some t => t
  | None => usdc deposited_state
  end.

(** The token balances after a payment of 0 to the service wallet. *)
Definition zero_paid : usdc_balances :=
  match tok_transfer (usdc demo_state) escrow_addr service_addr 0 with
  | Some t => t
  | None => usdc demo_state
  end.

End Demo.

(** * Properties of the contract. *)
Module EscrowProofs.
Import Escrow Observe.

Ltac split_conds :=
  repeat match goal with
  | |- context [if ?b then _ else _] => destruct b eqn:?
  | |- context [match ?x with Some _ => _ | None => _ end] => destruct x eqn:?
  | |- context [match ?x with inl _ => _ | inr _ => _ end] => destruct x eqn:?
  end.

Ltac bool_props :=
  repeat match goal with
  | H : negb _ = true |- _ => apply negb_true_iff in H
  | H : negb _ = false |- _ => apply negb_false_iff in H
  | H : (_ =? _) = true |- _ => apply Z.eqb_eq in H
  | H : (_ =? _) = false |- _ => apply Z.eqb_neq in H
  | H : (_ <=? _) = true |- _ => apply Z.leb_le in H
  | H : (_ <=? _) = false |- _ => apply Z.leb_gt in H
  | H : (_ <? _) = true |- _ => apply Z.ltb_lt in H
  | H : (_ <? _) = false |- _ => apply Z.ltb_ge in H
  | H : (_ >? _) = true |- _ => apply Z.gtb_lt in H
  | H : (_ >? _) = false |- _ => rewrite Z.gtb_ltb in H; apply Z.ltb_ge in H
  | H : (_ && _)%bool = true |- _ => apply andb_true_iff in H; destruct H
  end.


Section Props.

Context {T : Type} `{Token T} `{Crypto}.
Variable self serviceWallet : address.


Lemma execute_success s now snd i st s' :
  exec_tx self serviceWallet s (mkTx snd now (CExecute i st)) = (s', Success) ->
  abi_ok (CExecute i st) = true /\ status s <> ENTERED /\
  now <= deadline i /\ settledSessions s (sessionId i) = false /\
  sig_ok i /\ nonce i = nonces s (payer i) /\
  nonces s (payer i) + 1 <= UINT256_MAX /\
  amount i <= escrowBalances s (payer i) /\
  exists t, tok_transfer (usdc s) self serviceWallet (amount i) = Some t /\
            s' = settle_post s i t.
Proof.
  unfold exec_tx, dispatch; cbn [tx_call tx_sender tx_time].
  destruct (abi_ok (CExecute i st)) eqn:Habi; [|discriminate].
  unfold executePaymentIntent, nonReentrant, bind, get, require, put_status,
    put_nonce, put_settled, put_balance, checked_add, checked_sub, safeTransfer,
    recover_m, emit, ret, revert, sig_ok.
  cbn.
  split_conds; cbn; intro Hr; try discriminate.
  injection Hr as <-; bool_props.
  cbn [escrowBalances nonces settledSessions status usdc upd] in *; subst.
  unfold UINT256_MAX, ENTERED in *.
  repeat split; try lia; try congruence.
  eexists; split; [eassumption | reflexivity].
Qed.

Ltac unfold_monad :=
  unfold executePaymentIntent, deposit, withdraw, nonReentrant, bind, get,
    require, put_status, put_nonce, put_settled, put_balance, checked_add,
    checked_sub, safeTransfer, safeTransferFrom, recover_m, emit, ret, revert.

Lemma execute_success_intro s now snd i st t :
  abi_ok (CExecute i st) = true -> status s <> ENTERED ->
  now <= deadline i -> settledSessions s (sessionId i) = false ->
  sig_ok i -> nonce i = nonces s (payer i) ->
  nonces s (payer i) + 1 <= UINT256_MAX ->
  amount i <= escrowBalances s (payer i) ->
  tok_transfer (usdc s) self serviceWallet (amount i) = Some t ->
  exec_tx self serviceWallet s (mkTx snd now (CExecute i st)) = (settle_post s i t, Success).
Proof.
  intros Habi Hst Hdl Hset Hsig Hn Hov Hbal Htr.
  unfold exec_tx, dispatch; cbn [tx_call tx_sender tx_time]; rewrite Habi.
  unfold sig_ok in Hsig; unfold_monad; cbn.
  split_conds; bool_props;
    cbn [escrowBalances nonces settledSessions status usdc upd] in *;
    unfold UINT256_MAX, ENTERED in *; try lia; try congruence.
  match goal with H : tok_transfer _ _ _ _ = Some _ |- _ =>
    rewrite Htr in H; injection H as <- end.
  reflexivity.
Qed.

Lemma deposit_success s now snd amt s' :
  exec_tx self serviceWallet s (mkTx snd now (CDeposit amt)) = (s', Success) ->
  status s <> ENTERED /\ 0 < amt /\ amt <= UINT256_MAX /\
  escrowBalances s snd + amt <= UINT256_MAX /\
  exists t, tok_transferFrom (usdc s) snd self amt = Some t /\
    s' = mkState (upd Z.eqb (escrowBalances s) snd (escrowBalances s snd + amt))
                 (nonces s) (settledSessions s) NOT_ENTERED t.
Proof.
  unfold exec_tx, dispatch; cbn [tx_call tx_sender tx_time].
  destruct (abi_ok (CDeposit amt)) eqn:Habi; [|discriminate].
  unfold abi_ok, uint256_ok in Habi.
  unfold_monad; cbn.
  split_conds; cbn; intro Hr; try discriminate.
  injection Hr as <-; bool_props.
  cbn [escrowBalances nonces settledSessions status usdc upd] in *; subst.
  unfold UINT256_MAX, ENTERED in *.
  repeat split; try lia.
  eexists; split; [eassumption | reflexivity].
Qed.

Lemma withdraw_success s now snd amt s' :
  exec_tx self serviceWallet s (mkTx snd now (CWithdraw amt)) = (s', Success) ->
  status s <> ENTERED /\ 0 < amt /\ amt <= escrowBalances s snd /\
  exists t, tok_transfer (usdc s) self snd amt = Some t /\
    s' = mkState (upd Z.eqb (escrowBalances s) snd (escrowBalances s snd - amt))
                 (nonces s) (settledSessions s) NOT_ENTERED t.
Proof.
  unfold exec_tx, dispatch; cbn [tx_call tx_sender tx_time].
  destruct (abi_ok (CWithdraw amt)) eqn:Habi; [|discriminate].
  unfold_monad; cbn.
  split_conds; cbn; intro Hr; try discriminate.
  injection Hr as <-; bool_props.
  cbn [escrowBalances nonces settledSessions status usdc upd] in *; subst.
  unfold UINT256_MAX, ENTERED in *.
  repeat split; try lia.
  eexists; split; [eassumption | reflexivity].
Qed.

(** A transaction that does not succeed leaves the storage unchanged. *)
Lemma exec_revert s tx s' m :
  exec_tx self serviceWallet s tx = (s', Reverted m) -> s' = s.
Proof.
  unfold exec_tx; destruct (dispatch self serviceWallet tx s) as [l [x s1|e]];
    congruence.
Qed.


Lemma execute_expired s now snd i st :
  abi_ok (CExecute i st) = true -> status s <> ENTERED -> deadline i < now ->
  exec_tx self serviceWallet s (mkTx snd now (CExecute i st)) = (s, Reverted "Intent expired").
Proof.
  intros Habi Hst Hdl.
  unfold exec_tx, dispatch; cbn [tx_call tx_sender tx_time]; rewrite Habi.
  unfold_monad; cbn.
  split_conds; bool_props;
    cbn [escrowBalances nonces settledSessions status usdc upd] in *;
    unfold UINT256_MAX, ENTERED in *; try lia; try congruence.
Qed.

Lemma execute_already_settled s now snd i st :
  abi_ok (CExecute i st) = true -> status s <> ENTERED -> now <= deadline i ->
  settledSessions s (sessionId i) = true ->
  exec_tx self serviceWallet s (mkTx snd now (CExecute i st)) = (s, Reverted "Already settled").
Proof.
  intros Habi Hst Hdl Hset.
  unfold exec_tx, dispatch; cbn [tx_call tx_sender tx_time]; rewrite Habi.
  unfold_monad; cbn.
  split_conds; bool_props;
    cbn [escrowBalances nonces settledSessions status usdc upd] in *;
    unfold UINT256_MAX, ENTERED in *; try lia; try congruence.
Qed.

(** ** C1: a settlement commits only when the five conditions hold on the
    storage it starts from; otherwise it reverts and the storage (payer's
    balance and nonce, session registry) is exactly as before. *)
Theorem executePaymentIntent_atomic s now snd i st :
  let (s', o) := exec_tx self serviceWallet s (mkTx snd now (CExecute i st)) in
  (o = Success /\
   sig_ok i /\ nonce i = nonces s (payer i) /\ now <= deadline i /\
   settledSessions s (sessionId i) = false /\
   amount i <= escrowBalances s (payer i) /\
   escrowBalances s' (payer i) = escrowBalances s (payer i) - amount i /\
   nonces s' (payer i) = nonces s (payer i) + 1 /\
   settledSessions s' (sessionId i) = true)
  \/ (o <> Success /\ s' = s).
Proof.
  destruct (exec_tx self serviceWallet s (mkTx snd now (CExecute i st))) as [s' o] eqn:E.
  destruct o as [|m].
  - left. apply execute_success in E.
    destruct E as (_ & _ & Hdl & Hset & Hsig & Hn & _ & Hbal & t & _ & ->).
    unfold settle_post, upd; cbn.
    rewrite !Z.eqb_refl. repeat split; auto.
  - right. split; [discriminate | exact (exec_revert _ _ _ _ E)].
Qed.

(** ** C8: the deadline check is inclusive: with every other condition
    holding, [deadline = now] is accepted and [deadline = now - 1] is
    rejected with "Intent expired". *)
Theorem deadline_inclusive s snd i st t :
  status s = NOT_ENTERED -> abi_ok (CExecute i st) = true ->
  settledSessions s (sessionId i) = false -> sig_ok i ->
  nonce i = nonces s (payer i) -> nonces s (payer i) + 1 <= UINT256_MAX ->
  amount i <= escrowBalances s (payer i) ->
  tok_transfer (usdc s) self serviceWallet (amount i) = Some t ->
  exec_tx self serviceWallet s (mkTx snd (deadline i) (CExecute i st)) = (settle_post s i t, Success) /\
  exec_tx self serviceWallet s (mkTx snd (deadline i + 1) (CExecute i st))
    = (s, Reverted "Intent expired").
Proof.
  intros Hst Habi Hset Hsig Hn Hov Hbal Htr.
  assert (Hne : status s <> ENTERED) by (rewrite Hst; discriminate).
  split.
  - apply execute_success_intro; auto; lia.
  - apply execute_expired; auto; lia.
Qed.

(** ** C9: frame of the state-changing calls.  A successful settlement
    changes exactly the payer's balance (minus the amount), the payer's nonce
    (plus one) and the session's flag (to true); a successful deposit or
    withdraw changes only the caller's balance, no nonce, no session flag. *)
Theorem state_change_frame :
  (forall s now snd i st s',
     exec_tx self serviceWallet s (mkTx snd now (CExecute i st)) = (s', Success) ->
     escrowBalances s' (payer i) = escrowBalances s (payer i) - amount i /\
     nonces s' (payer i) = nonces s (payer i) + 1 /\
     settledSessions s' (sessionId i) = true /\
     (forall a, a <> payer i ->
        escrowBalances s' a = escrowBalances s a /\ nonces s' a = nonces s a) /\
     (forall sid, sid <> sessionId i ->
        settledSessions s' sid = settledSessions s sid)) /\
  (forall s now snd amt s',
     exec_tx self serviceWallet s (mkTx snd now (CDeposit amt)) = (s', Success) ->
     (forall a, a <> snd -> escrowBalances s' a = escrowBalances s a) /\
     nonces s' = nonces s /\ settledSessions s' = settledSessions s) /\
  (forall s now snd amt s',
     exec_tx self serviceWallet s (mkTx snd now (CWithdraw amt)) = (s', Success) ->
     (forall a, a <> snd -> escrowBalances s' a = escrowBalances s a) /\
     nonces s' = nonces s /\ settledSessions s' = settledSessions s).
Proof.
  split; [|split].
  - intros s now snd i st s' E.
    apply execute_success in E.
    destruct E as (_ & _ & _ & _ & _ & _ & _ & _ & t & _ & ->).
    unfold settle_post, upd; cbn. rewrite !Z.eqb_refl.
    repeat split; intros;
      repeat match goal with
      | |- context [?x =? ?y] => destruct (Z.eqb_spec x y); [congruence|]
      end; reflexivity.
  - intros s now snd amt s' E.
    apply deposit_success in E.
    destruct E as (_ & _ & _ & _ & t & _ & ->); cbn.
    repeat split; intros a Ha; unfold upd.
    destruct (Z.eqb_spec snd a); [congruence | reflexivity].
  - intros s now snd amt s' E.
    apply withdraw_success in E.
    destruct E as (_ & _ & _ & t & _ & ->); cbn.
    repeat split; intros a Ha; unfold upd.
    destruct (Z.eqb_spec snd a); [congruence | reflexivity].
Qed.

Lemma exec_balance s tx a :
  escrowBalances (fst (exec_tx self serviceWallet s tx)) a =
  escrowBalances s a +
  (if is_success (snd (exec_tx self serviceWallet s tx))
   then deposited a tx - withdrawn a tx - settled_amount a tx else 0).
Proof.
  destruct (exec_tx self serviceWallet s tx) as [s' o] eqn:E; cbn [fst snd].
  destruct o as [|m]; cbn [is_success].
  2: { rewrite (exec_revert _ _ _ _ E); lia. }
  destruct tx as [snd now c]; destruct c as [x|x|i st];
    unfold deposited, withdrawn, settled_amount; cbn [tx_call tx_sender].
  - apply deposit_success in E; destruct E as (_ & _ & _ & _ & t & _ & ->).
    cbn; unfold upd; destruct (Z.eqb_spec snd a); subst; lia.
  - apply withdraw_success in E; destruct E as (_ & _ & _ & t & _ & ->).
    cbn; unfold upd; destruct (Z.eqb_spec snd a); subst; lia.
  - apply execute_success in E.
    destruct E as (_ & _ & _ & _ & _ & _ & _ & _ & t & _ & ->).
    cbn; unfold upd; destruct (Z.eqb_spec (payer i) a); subst; lia.
Qed.

Lemma exec_balance_nonneg s tx a :
  0 <= escrowBalances s a -> 0 <= escrowBalances (fst (exec_tx self serviceWallet s tx)) a.
Proof.
  intro Hz.
  destruct (exec_tx self serviceWallet s tx) as [s' o] eqn:E; cbn [fst].
  destruct o as [|m]; [|rewrite (exec_revert _ _ _ _ E); exact Hz].
  destruct tx as [snd now c]; destruct c as [x|x|i st].
  - apply deposit_success in E; destruct E as (_ & Hx & _ & _ & t & _ & ->).
    cbn; unfold upd; destruct (Z.eqb_spec snd a); subst; lia.
  - apply withdraw_success in E; destruct E as (_ & _ & Hx & t & _ & ->).
    cbn; unfold upd; destruct (Z.eqb_spec snd a); subst; lia.
  - apply execute_success in E.
    destruct E as (_ & _ & _ & _ & _ & _ & _ & Hb & t & _ & ->).
    cbn; unfold upd; destruct (Z.eqb_spec (payer i) a); subst; lia.
Qed.

Lemma exec_nonce s tx a :
  nonces (fst (exec_tx self serviceWallet s tx)) a =
  nonces s a + (if is_success (snd (exec_tx self serviceWallet s tx)) then settlements_of a tx else 0).
Proof.
  destruct (exec_tx self serviceWallet s tx) as [s' o] eqn:E; cbn [fst snd].
  destruct o as [|m]; cbn [is_success].
  2: { rewrite (exec_revert _ _ _ _ E); lia. }
  destruct tx as [snd now c]; destruct c as [x|x|i st];
    unfold settlements_of; cbn [tx_call].
  - apply deposit_success in E; destruct E as (_ & _ & _ & _ & t & _ & ->).
    cbn; lia.
  - apply withdraw_success in E; destruct E as (_ & _ & _ & t & _ & ->).
    cbn; lia.
  - apply execute_success in E.
    destruct E as (_ & _ & _ & _ & _ & _ & _ & _ & t & _ & ->).
    cbn; unfold upd; destruct (Z.eqb_spec (payer i) a); subst; lia.
Qed.

Lemma exec_settled_monotone s tx sid :
  settledSessions s sid = true -> settledSessions (fst (exec_tx self serviceWallet s tx)) sid = true.
Proof.
  intro Hz.
  destruct (exec_tx self serviceWallet s tx) as [s' o] eqn:E; cbn [fst].
  destruct o as [|m]; [|rewrite (exec_revert _ _ _ _ E); exact Hz].
  destruct tx as [snd now c]; destruct c as [x|x|i st].
  - apply deposit_success in E; destruct E as (_ & _ & _ & _ & t & _ & ->).
    exact Hz.
  - apply withdraw_success in E; destruct E as (_ & _ & _ & t & _ & ->).
    exact Hz.
  - apply execute_success in E.
    destruct E as (_ & _ & _ & _ & _ & _ & _ & _ & t & _ & ->).
    cbn; unfold upd; destruct (Z.eqb (sessionId i) sid); auto.
Qed.

(** A successful settlement of [sid] needs [sid] unsettled and leaves it
    settled. *)
Lemma exec_settled_count s tx sid :
  (if is_success (snd (exec_tx self serviceWallet s tx)) then settlements_for sid tx else 0) = 1 ->
  settledSessions s sid = false /\ settledSessions (fst (exec_tx self serviceWallet s tx)) sid = true.
Proof.
  destruct (exec_tx self serviceWallet s tx) as [s' o] eqn:E; cbn [fst snd].
  destruct o as [|m]; cbn [is_success]; [|discriminate].
  destruct tx as [snd now c]; destruct c as [x|x|i st];
    unfold settlements_for; cbn [tx_call]; try discriminate.
  destruct (Z.eqb_spec (sessionId i) sid); [|discriminate]; subst; intros _.
  apply execute_success in E.
  destruct E as (_ & _ & _ & Hs & _ & _ & _ & _ & t & _ & ->).
  split; [exact Hs|]. cbn; unfold upd; rewrite Z.eqb_refl; reflexivity.
Qed.

Lemma settlements_for_01 s tx sid :
  0 <= (if is_success (snd (exec_tx self serviceWallet s tx)) then settlements_for sid tx else 0) <= 1.
Proof.
  unfold settlements_for.
  destruct (is_success _); [|lia].
  destruct (tx_call tx); [lia|lia|]. destruct (_ =? _); lia.
Qed.

Lemma run_balance s txs a :
  let (h, sf) := run self serviceWallet s txs in
  escrowBalances sf a = escrowBalances s a + sum_success (deposited a) h
    - sum_success (withdrawn a) h - sum_success (settled_amount a) h.
Proof.
  revert s; induction txs as [|tx rest IH]; intro s; cbn [run].
  - cbn; lia.
  - pose proof (exec_balance s tx a) as Hb.
    destruct (exec_tx self serviceWallet s tx) as [s1 o] eqn:E.
    specialize (IH s1); destruct (run self serviceWallet s1 rest) as [h sf].
    cbn [sum_success fst snd] in *. rewrite IH, Hb.
    destruct (is_success o); lia.
Qed.

Lemma run_balance_nonneg s txs a :
  0 <= escrowBalances s a ->
  let (h, sf) := run self serviceWallet s txs in
  Forall (fun e => 0 <= escrowBalances (snd e) a) h /\ 0 <= escrowBalances sf a.
Proof.
  revert s; induction txs as [|tx rest IH]; intros s Hz; cbn [run].
  - auto.
  - pose proof (exec_balance_nonneg s tx a Hz) as Hb.
    destruct (exec_tx self serviceWallet s tx) as [s1 o] eqn:E; cbn [fst] in Hb.
    specialize (IH s1 Hb); destruct (run self serviceWallet s1 rest) as [h sf].
    destruct IH as [IH1 IH2]. split; [constructor; assumption | assumption].
Qed.

Lemma run_nonce s txs a :
  let (h, sf) := run self serviceWallet s txs in
  nonces sf a = nonces s a + sum_success (settlements_of a) h.
Proof.
  revert s; induction txs as [|tx rest IH]; intro s; cbn [run].
  - cbn; lia.
  - pose proof (exec_nonce s tx a) as Hn.
    destruct (exec_tx self serviceWallet s tx) as [s1 o] eqn:E.
    specialize (IH s1); destruct (run self serviceWallet s1 rest) as [h sf].
    cbn [sum_success fst snd] in *. rewrite IH, Hn.
    destruct (is_success o); lia.
Qed.

Lemma run_sessions s txs sid :
  let (h, _) := run self serviceWallet s txs in
  sum_success (settlements_for sid) h
    <= (if settledSessions s sid then 0 else 1).
Proof.
  revert s; induction txs as [|tx rest IH]; intro s; cbn [run].
  - cbn; destruct (settledSessions s sid); lia.
  - pose proof (exec_settled_count s tx sid) as Hc.
    pose proof (settlements_for_01 s tx sid) as H01.
    pose proof (exec_settled_monotone s tx sid) as Hm.
    destruct (exec_tx self serviceWallet s tx) as [s1 o] eqn:E; cbn [fst snd] in *.
    specialize (IH s1); destruct (run self serviceWallet s1 rest) as [h sf].
    cbn [sum_success].
    all: destruct (Z.eq_dec (if is_success o then settlements_for sid tx else 0) 1)
           as [E1|E1].
    all: try (destruct (Hc E1) as [Hf Ht]; rewrite Ht in IH; rewrite Hf; lia).
    all: destruct (settledSessions s sid) eqn:Hs;
         [rewrite (Hm eq_refl) in IH|]; destruct (settledSessions s1 sid); lia.
Qed.

(** ** C2: balance conservation.  For any sequence of transactions from the
    freshly deployed contract, an account's final balance is the sum of its
    successful deposits minus its successful withdrawals minus its successful
    settlements, and the balance is non-negative after every transaction. *)
Theorem balance_conservation tok txs a :
  let (h, sf) := run self serviceWallet (init_state tok) txs in
  escrowBalances sf a = sum_success (deposited a) h
    - sum_success (withdrawn a) h - sum_success (settled_amount a) h /\
  Forall (fun e => 0 <= escrowBalances (snd e) a) h /\
  0 <= escrowBalances sf a.
Proof.
  pose proof (run_balance (init_state tok) txs a) as Hb.
  pose proof (run_balance_nonneg (init_state tok) txs a) as Hn.
  destruct (run self serviceWallet (init_state tok) txs) as [h sf].
  cbn [escrowBalances init_state] in Hb, Hn.
  split; [lia | apply Hn; lia].
Qed.

(** ** C3: a session is settled at most once.  A settled flag is never
    cleared by any transaction; a settlement of an already settled session
    (within its deadline) reverts with "Already settled" and leaves the
    storage unchanged; and over any sequence of transactions from the freshly
    deployed contract at most one settlement of a given session succeeds. *)
Theorem session_settled_once :
  (forall s tx sid, settledSessions s sid = true ->
     settledSessions (fst (exec_tx self serviceWallet s tx)) sid = true) /\
  (forall s now snd i st,
     status s = NOT_ENTERED -> abi_ok (CExecute i st) = true ->
     now <= deadline i -> settledSessions s (sessionId i) = true ->
     exec_tx self serviceWallet s (mkTx snd now (CExecute i st)) = (s, Reverted "Already settled")) /\
  (forall tok txs sid,
     let (h, _) := run self serviceWallet (init_state tok) txs in
     sum_success (settlements_for sid) h <= 1).
Proof.
  split; [|split].
  - intros; apply exec_settled_monotone; assumption.
  - intros s now snd i st Hst Habi Hdl Hset.
    apply execute_already_settled; auto. rewrite Hst; discriminate.
  - intros tok txs sid.
    pose proof (run_sessions (init_state tok) txs sid) as Hr.
    destruct (run self serviceWallet (init_state tok) txs) as [h sf].
    exact Hr.
Qed.

(** ** C4: nonce counting.  Every transaction changes an account's nonce by
    one if it is a successful settlement by that account and by nothing
    otherwise; hence from the freshly deployed contract the nonce equals the
    number of successful settlements of the account. *)
Theorem nonce_counts_settlements :
  (forall s tx a,
     nonces (fst (exec_tx self serviceWallet s tx)) a =
     nonces s a + (if is_success (snd (exec_tx self serviceWallet s tx)) then settlements_of a tx else 0)) /\
  (forall tok txs a,
     let (h, sf) := run self serviceWallet (init_state tok) txs in
     nonces sf a = sum_success (settlements_of a) h).
Proof.
  split.
  - apply exec_nonce.
  - intros tok txs a.
    pose proof (run_nonce (init_state tok) txs a) as Hn.
    destruct (run self serviceWallet (init_state tok) txs) as [h sf].
    cbn [nonces init_state] in Hn; lia.
Qed.

End Props.
End EscrowProofs.

(** * Properties of the relayer endpoint. *)
Module RelayerProofs.
Import Escrow Relayer Observe EscrowProofs.

Section Props.

Context {T : Type} `{Token T} `{Crypto} `{Abi}.
Variable self serviceWallet relayer : address.
Variable now : Z.










End Props.
End RelayerProofs.

(** * Further properties of the contract, the relayer and the utility
    endpoints. *)
Module MoreProofs.
Import Escrow Relayer Observe EscrowProofs.

Ltac unfold_contract :=
  unfold deposit, withdraw, executePaymentIntent, nonReentrant, bind, get,
    require, put_status, put_nonce, put_settled, put_balance, checked_add,
    checked_sub, safeTransfer, safeTransferFrom, recover_m, emit, ret, revert.

(** Run a transaction of the contract symbolically, splitting on every
    check. *)
Ltac run_tx Habi :=
  unfold exec_tx, dispatch; cbn [tx_call tx_sender tx_time]; rewrite Habi;
  unfold_contract; cbn;
  split_conds; bool_props;
  cbn [escrowBalances nonces settledSessions status usdc upd] in *;
  unfold UINT256_MAX, ENTERED in *; try lia; try congruence.

Ltac dmatch_in Hy :=
  repeat match type of Hy with
  | context [if ?b then _ else _] => destruct b eqn:?
  | context [match ?x with Some _ => _ | None => _ end] => destruct x eqn:?
  | context [match ?x with Success => _ | Reverted _ => _ end] => destruct x eqn:?
  | context [match ?x with (_, _) => _ end] => destruct x eqn:?
  end.

(** Decimal rendering and [StringToBigInt]. *)
Lemma drop_ws_id l : Forall (fun c => is_ws c = false) l -> drop_ws l = l.
Proof. destruct 1 as [|c r Hc _]; cbn; [reflexivity|]. now rewrite Hc. Qed.

Lemma trim_id l : Forall (fun c => is_ws c = false) l -> trim l = l.
Proof.
  intro Hl. unfold trim. rewrite (drop_ws_id l Hl).
  rewrite drop_ws_id; [apply rev_involutive|]. now apply Forall_rev.
Qed.

Lemma uint_no_ws d :
  Forall (fun c => is_ws c = false) (list_ascii_of_string (uint_to_string d)).
Proof. induction d; cbn; constructor; auto. Qed.

Lemma digits_val_step c r acc k :
  digit_val c = Some k -> k < 10 ->
  digits_val 10 (c :: r) acc = digits_val 10 r (acc * 10 + k).
Proof. intros Hc Hk; cbn; rewrite Hc; now apply Z.ltb_lt in Hk as ->. Qed.

Ltac digit_step :=
  match goal with |- digits_val 10 (?c :: _) _ = _ =>
    let v := eval vm_compute in (digit_val c) in
    match v with Some ?k =>
      rewrite (digits_val_step c _ _ k (eq_refl v)) by lia end end.

Lemma digits_val_uint_acc d p :
  digits_val 10 (list_ascii_of_string (uint_to_string d)) (Z.pos p)
  = Some (Z.pos (Pos.of_uint_acc d p)).
Proof.
  revert p; induction d; intro p; [reflexivity|..];
    cbn [uint_to_string list_ascii_of_string Pos.of_uint_acc];
    digit_step; rewrite <- IHd; f_equal; lia.
Qed.

Lemma digits_val_uint d :
  digits_val 10 (list_ascii_of_string (uint_to_string d)) 0 = Some (Z.of_uint d).
Proof.
  induction d; [reflexivity|..];
    cbn [uint_to_string list_ascii_of_string]; digit_step;
    [exact IHd|..]; apply digits_val_uint_acc.
Qed.

Lemma StringToBigInt_uint d :
  d <> Decimal.Nil -> StringToBigInt (uint_to_string d) = Some (Z.of_uint d).
Proof.
  intro Hd. unfold StringToBigInt. rewrite trim_id by apply uint_no_ws.
  rewrite <- digits_val_uint.
  destruct d as [|d|d|d|d|d|d|d|d|d|d]; [congruence|..];
    destruct d; reflexivity.
Qed.

Lemma StringToBigInt_Z_to_string n : StringToBigInt (Z_to_string n) = Some n.
Proof.
  pose proof (DecimalZ.of_to n) as Hn.
  destruct n as [|p|p]; [reflexivity|..]; unfold Z_to_string; cbn [Z.to_int] in *;
    cbn [Z.of_int] in Hn.
  - rewrite StringToBigInt_uint; [exact (f_equal Some Hn)|].
    intro E; rewrite E in Hn; discriminate.
  - assert (Hd : Pos.to_uint p <> Decimal.Nil)
      by (intro E; rewrite E in Hn; discriminate).
    unfold StringToBigInt.
    rewrite trim_id by (constructor; [reflexivity | apply uint_no_ws]).
    cbn [list_ascii_of_string].
    change (option_map Z.opp (digits 10 (list_ascii_of_string (uint_to_string (Pos.to_uint p))))
            = Some (Z.neg p)).
    unfold digits.
    destruct (list_ascii_of_string (uint_to_string (Pos.to_uint p))) eqn:E.
    + destruct (Pos.to_uint p); [congruence|..]; discriminate.
    + rewrite <- E, digits_val_uint; cbn. rewrite Hn. reflexivity.
Qed.

Section Contract.

Context {T : Type} `{Token T} `{Crypto}.
Variable self serviceWallet : address.

Lemma exec_success_idle s tx s' :
  exec_tx self serviceWallet s tx = (s', Success) -> status s' = NOT_ENTERED.
Proof.
  destruct tx as [snd now [a|a|i st]]; intro E.
  - apply deposit_success in E; destruct E as (_ & _ & _ & _ & t & _ & ->); reflexivity.
  - apply withdraw_success in E; destruct E as (_ & _ & _ & t & _ & ->); reflexivity.
  - apply execute_success in E.
    destruct E as (_ & _ & _ & _ & _ & _ & _ & _ & t & _ & ->); reflexivity.
Qed.

Lemma exec_status_idle s tx :
  status s = NOT_ENTERED -> status (fst (exec_tx self serviceWallet s tx)) = NOT_ENTERED.
Proof.
  intro Hs. destruct (exec_tx self serviceWallet s tx) as [s' o] eqn:E; cbn [fst].
  destruct o as [|m].
  - exact (exec_success_idle _ _ _ E).
  - rewrite (exec_revert self serviceWallet _ _ _ _ E); exact Hs.
Qed.

Lemma run_status_idle s txs :
  status s = NOT_ENTERED ->
  (forall tx o s1, In (tx, o, s1) (fst (run self serviceWallet s txs)) ->
     status s1 = NOT_ENTERED) /\
  status (snd (run self serviceWallet s txs)) = NOT_ENTERED.
Proof.
  revert s; induction txs as [|tx rest IH]; intros s Hs; cbn [run].
  - split; [intros ? ? ? [] | exact Hs].
  - pose proof (exec_status_idle s tx Hs) as H1.
    destruct (exec_tx self serviceWallet s tx) as [s1 o]; cbn [fst] in H1.
    destruct (IH s1 H1) as [IHa IHb].
    destruct (run self serviceWallet s1 rest) as [h sf]; cbn [fst snd] in *.
    split; [|exact IHb].
    intros tx' o' s' [Heq|Hin]; [injection Heq as _ _ <-; exact H1 | exact (IHa _ _ _ Hin)].
Qed.

Lemma withdraw_success_intro s now snd amt t :
  status s <> ENTERED -> 0 < amt <= UINT256_MAX -> amt <= escrowBalances s snd ->
  tok_transfer (usdc s) self snd amt = Some t ->
  exec_tx self serviceWallet s (mkTx snd now (CWithdraw amt))
  = (mkState (upd Z.eqb (escrowBalances s) snd (escrowBalances s snd - amt))
             (nonces s) (settledSessions s) NOT_ENTERED t, Success).
Proof.
  intros Hst Hamt Hbal Htr.
  assert (Habi : abi_ok (CWithdraw amt) = true)
    by (unfold abi_ok, uint256_ok; apply andb_true_iff; split; apply Z.leb_le; lia).
  run_tx Habi.
Qed.

Lemma execute_bad_nonce s now snd i st :
  abi_ok (CExecute i st) = true -> status s <> ENTERED ->
  now <= deadline i -> settledSessions s (sessionId i) = false -> sig_ok i ->
  nonce i <> nonces s (payer i) ->
  exec_tx self serviceWallet s (mkTx snd now (CExecute i st)) = (s, Reverted "Invalid nonce"%string).
Proof.
  intros Habi Hst Hdl Hset Hsig Hn. unfold sig_ok in Hsig. run_tx Habi.
Qed.

(** ** The reentrancy status after deployment: a deployment succeeds only
    with non-zero token and service-wallet addresses and starts from the
    empty storage; from there, before and after every transaction of any
    sequence, the status is NOT_ENTERED, so the guard is open to every
    top-level call. *)
Theorem deployed_guard_idle usdcToken tok s0 txs :
  constructor usdcToken serviceWallet tok = @ROk T unit tt s0 ->
  usdcToken <> 0 /\ serviceWallet <> 0 /\ s0 = init_state tok /\
  (forall tx o s, In (tx, o, s) (fst (run self serviceWallet s0 txs)) ->
     status s = NOT_ENTERED) /\
  status (snd (run self serviceWallet s0 txs)) = NOT_ENTERED.
Proof.
  unfold constructor.
  destruct (Z.eqb_spec usdcToken 0); [discriminate|].
  destruct (Z.eqb_spec serviceWallet 0); [discriminate|].
  intro E; injection E as <-.
  split; [assumption|]. split; [assumption|]. split; [reflexivity|].
  apply run_status_idle; reflexivity.
Qed.

(** ** The reentrancy guard: while a call is in progress (status ENTERED), a
    nested call to deposit, withdraw or executePaymentIntent reverts with
    "ReentrancyGuard: reentrant call" at its first check, before any write
    or transfer. *)
Theorem reentrant_call_reverts s tx :
  status s = ENTERED -> abi_ok (tx_call tx) = true ->
  dispatch self serviceWallet tx s =
  ([EvCheck "ReentrancyGuard: reentrant call"%string],
   @RRevert T unit "ReentrancyGuard: reentrant call"%string).
Proof.
  intros Hs Habi. unfold dispatch; rewrite Habi.
  destruct tx as [snd now [a|a|i st]]; cbn [tx_call tx_sender tx_time];
    unfold_contract; cbn; rewrite Hs; reflexivity.
Qed.

(** ** A deposit or a withdrawal of 0 reverts with "Amount must be > 0" and
    changes nothing. *)
Theorem zero_amount_rejected s snd now :
  status s <> ENTERED ->
  exec_tx self serviceWallet s (mkTx snd now (CDeposit 0))
    = (s, Reverted "Amount must be > 0"%string) /\
  exec_tx self serviceWallet s (mkTx snd now (CWithdraw 0))
    = (s, Reverted "Amount must be > 0"%string).
Proof.
  intro Hst.
  assert (Habi : forall c, c = CDeposit 0 \/ c = CWithdraw 0 -> abi_ok c = true)
    by (intros c [-> | ->]; reflexivity).
  split.
  - pose proof (Habi _ (or_introl eq_refl)) as Ha. run_tx Ha.
  - pose proof (Habi _ (or_intror eq_refl)) as Ha. run_tx Ha.
Qed.

(** ** A withdrawal of more than the caller's escrow balance reverts with
    "Insufficient balance" and changes nothing. *)
Theorem withdraw_above_balance s snd now amt :
  status s <> ENTERED -> 0 < amt <= UINT256_MAX -> escrowBalances s snd < amt ->
  exec_tx self serviceWallet s (mkTx snd now (CWithdraw amt))
    = (s, Reverted "Insufficient balance"%string).
Proof.
  intros Hst Hamt Hbal.
  assert (Habi : abi_ok (CWithdraw amt) = true)
    by (unfold abi_ok, uint256_ok; apply andb_true_iff; split; apply Z.leb_le; lia).
  run_tx Habi.
Qed.

(** ** A deposit that would push the caller's escrow balance past
    [type(uint256).max] panics with an arithmetic overflow, after the token
    transfer has succeeded; the whole transaction, the transfer included,
    is undone. *)
Theorem deposit_overflow_reverts s snd now amt t :
  status s <> ENTERED -> 0 < amt <= UINT256_MAX ->
  tok_transferFrom (usdc s) snd self amt = Some t ->
  UINT256_MAX < escrowBalances s snd + amt ->
  exec_tx self serviceWallet s (mkTx snd now (CDeposit amt))
    = (s, Reverted "Panic(0x11)"%string).
Proof.
  intros Hst Hamt Htr Hov.
  assert (Habi : abi_ok (CDeposit amt) = true)
    by (unfold abi_ok, uint256_ok; apply andb_true_iff; split; apply Z.leb_le; lia).
  run_tx Habi.
Qed.

(** ** Deposit then withdraw: after a successful deposit of [amt], the
    same caller can withdraw [amt] (when the token pays it out; the
    balance before the deposit is a [uint256], so non-negative), and the
    escrow balances, nonces and settled sessions are back to what they were
    before the deposit. *)
Theorem deposit_withdraw_roundtrip s snd now now' amt s1 t :
  0 <= escrowBalances s snd ->
  exec_tx self serviceWallet s (mkTx snd now (CDeposit amt)) = (s1, Success) ->
  tok_transfer (usdc s1) self snd amt = Some t ->
  exists s2,
    exec_tx self serviceWallet s1 (mkTx snd now' (CWithdraw amt)) = (s2, Success) /\
    (forall a, escrowBalances s2 a = escrowBalances s a) /\
    nonces s2 = nonces s /\ settledSessions s2 = settledSessions s /\ usdc s2 = t.
Proof.
  intros Hnn Hd Htr.
  apply deposit_success in Hd.
  destruct Hd as (Hst & Hpos & Hmax & Hov & t0 & Htf & ->).
  eexists; split.
  - apply withdraw_success_intro; cbn [status escrowBalances usdc] in *.
    + unfold NOT_ENTERED, ENTERED; discriminate.
    + lia.
    + unfold upd; rewrite Z.eqb_refl; lia.
    + exact Htr.
  - cbn; split; [|split; [reflexivity | split; reflexivity]].
    intro a; unfold upd; rewrite ?Z.eqb_refl.
    destruct (Z.eqb_spec snd a); subst; lia.
Qed.

(** ** The contract has no lower bound on a settlement's amount: an intent
    for 0 that passes the other checks succeeds; it moves no escrow funds
    but consumes the payer's nonce and settles the session. *)
Theorem zero_amount_settles s now snd i st t :
  amount i = 0 -> abi_ok (CExecute i st) = true -> status s <> ENTERED ->
  now <= deadline i -> settledSessions s (sessionId i) = false -> sig_ok i ->
  nonce i = nonces s (payer i) -> nonces s (payer i) + 1 <= UINT256_MAX ->
  0 <= escrowBalances s (payer i) ->
  tok_transfer (usdc s) self serviceWallet 0 = Some t ->
  exists s',
    exec_tx self serviceWallet s (mkTx snd now (CExecute i st)) = (s', Success) /\
    (forall a, escrowBalances s' a = escrowBalances s a) /\
    nonces s' (payer i) = nonces s (payer i) + 1 /\
    settledSessions s' (sessionId i) = true.
Proof.
  intros Ham Habi Hst Hdl Hset Hsig Hn Hov Hbal Htr.
  exists (settle_post s i t). split.
  - apply execute_success_intro; auto; rewrite Ham; assumption.
  - unfold settle_post, upd; cbn; rewrite !Z.eqb_refl.
    split; [|split; reflexivity].
    intro a; destruct (Z.eqb_spec (payer i) a); subst; lia.
Qed.

Lemma sum_settlements_nonneg a (h : list (Tx * outcome * @State T)) :
  0 <= sum_success (settlements_of a) h.
Proof.
  induction h as [|[[tx o] s1] r IH]; cbn [sum_success]; [lia|].
  assert (0 <= settlements_of a tx).
  { unfold settlements_of; destruct (tx_call tx) as [x|x|i st]; try lia.
    destruct (payer i =? a); lia. }
  destruct (is_success o); lia.
Qed.

(** ** No replay across sessions: once an intent of a payer has settled,
    at every later state (after any further transactions), an intent of
    that payer carrying the same nonce, not expired, for an unsettled
    session and with a valid signature, reverts with "Invalid nonce". *)
Theorem nonce_replay_rejected s now sender i st s1 txs now' sender' j st' :
  exec_tx self serviceWallet s (mkTx sender now (CExecute i st)) = (s1, Success) ->
  payer j = payer i -> nonce j = nonce i ->
  abi_ok (CExecute j st') = true -> now' <= deadline j ->
  settledSessions (snd (run self serviceWallet s1 txs)) (sessionId j) = false ->
  sig_ok j ->
  exec_tx self serviceWallet (snd (run self serviceWallet s1 txs))
    (mkTx sender' now' (CExecute j st'))
  = (snd (run self serviceWallet s1 txs), Reverted "Invalid nonce"%string).
Proof.
  intros E Hp Hn Habi Hdl Hset Hsig.
  pose proof (exec_success_idle _ _ _ E) as Hidle.
  pose proof (proj2 (run_status_idle s1 txs Hidle)) as Hidle2.
  pose proof (run_nonce self serviceWallet s1 txs (payer i)) as Hrun.
  apply execute_success in E.
  destruct E as (_ & _ & _ & _ & _ & Hni & _ & _ & t & _ & Hs1).
  assert (Hs1n : nonces s1 (payer i) = nonce i + 1)
    by (rewrite Hs1; unfold settle_post, upd; cbn; rewrite Z.eqb_refl; lia).
  destruct (run self serviceWallet s1 txs) as [h sf]; cbn [snd] in *.
  pose proof (sum_settlements_nonneg (payer i) h).
  apply execute_bad_nonce; auto.
  - rewrite Hidle2; unfold NOT_ENTERED, ENTERED; discriminate.
  - rewrite Hp, Hn; lia.
Qed.

(** ** A signature that does not recover to the payer is rejected, and
    nothing changes: with "Invalid signature" when it recovers to another
    address, and with the error of [ECDSA.recover] (invalid signature,
    invalid length, or high [s]) when it does not recover. *)
Theorem bad_signature_rejected s now sender i st :
  abi_ok (CExecute i st) = true -> status s <> ENTERED ->
  now <= deadline i -> settledSessions s (sessionId i) = false ->
  (forall a,
     tryRecover (hashTypedDataV4 (keccak_struct (payer i) (sessionId i) (amount i)
                                    (deadline i) (nonce i))) (signature i) = inl a ->
     a <> payer i ->
     exec_tx self serviceWallet s (mkTx sender now (CExecute i st))
       = (s, Reverted "Invalid signature"%string)) /\
  (forall e,
     tryRecover (hashTypedDataV4 (keccak_struct (payer i) (sessionId i) (amount i)
                                    (deadline i) (nonce i))) (signature i) = inr e ->
     exec_tx self serviceWallet s (mkTx sender now (CExecute i st))
       = (s, Reverted (recover_error_msg e))).
Proof.
  intros Habi Hst Hdl Hset. split.
  - intros a Hrec Ha. run_tx Habi.
  - intros e Hrec. run_tx Habi.
Qed.

(** ** A settlement that passes the deadline, session, signature and nonce
    checks but exceeds the payer's escrow balance reverts with
    "Insufficient balance"; the nonce increment and the session flag that
    the code writes before that check are rolled back. *)
Theorem execute_insufficient_rolls_back s now snd i st :
  abi_ok (CExecute i st) = true -> status s <> ENTERED ->
  now <= deadline i -> settledSessions s (sessionId i) = false -> sig_ok i ->
  nonce i = nonces s (payer i) -> nonces s (payer i) + 1 <= UINT256_MAX ->
  escrowBalances s (payer i) < amount i ->
  exec_tx self serviceWallet s (mkTx snd now (CExecute i st))
    = (s, Reverted "Insufficient balance"%string).
Proof.
  intros Habi Hst Hdl Hset Hsig Hn Hov Hbal. unfold sig_ok in Hsig. run_tx Habi.
Qed.

End Contract.

Section Endpoints.

Context {T : Type} `{Token T} `{Crypto} `{Abi}.
Variable self serviceWallet relayer : address.
Variable now : Z.

(** ** What the relayer submits: an intent goes to the ledger only after
    the ledger reads of its payer's balance and its session, only when the
    balance covers the amount and the session is unsettled on that state,
    and with amount, deadline and nonce in the [uint256] range; it is the
    last of the endpoint's ledger calls, and the only submission. *)
Theorem relayer_submits_checked_intents s req tr r s' i sty :
  executePayment self serviceWallet relayer now s req = (tr, r, s') ->
  In (Submit i sty) tr ->
  tr = [ReadBalance (payer i); ReadSettled (sessionId i); Submit i sty] /\
  amount i <= escrowBalances s (payer i) /\
  settledSessions s (sessionId i) = false /\
  abi_ok (CExecute i sty) = true.
Proof.
  intros E Hin. unfold executePayment in E; cbv zeta in E.
  dmatch_in E; injection E as <- _ _; cbn [app In] in Hin;
    repeat (destruct Hin as [Hin|Hin]; [try discriminate|]); try contradiction.
  all: injection Hin as <- <-; bool_props; unfold enc_uint256 in *.
  all: repeat match goal with
       | Hx : (if ?b then Some _ else None) = Some _ |- _ =>
           destruct b eqn:?; [injection Hx as <-|discriminate]
       end.
  all: cbn [payer sessionId amount abi_ok deadline nonce].
  all: repeat split; try assumption; try lia.
  all: repeat match goal with Hx : uint256_ok _ = true |- _ => rewrite Hx; clear Hx end.
  all: reflexivity.
Qed.

(** ** The nonce endpoint's round trip: for an address that encodes, the
    endpoint answers with the address as given and a decimal string that
    [BigInt] reads back as the ledger's nonce for that address, so a client
    can put it unchanged into the [nonce] field of an intent. *)
Theorem getNonce_roundtrip (s : @State T) addr a :
  enc_address (JStr addr) = Some a ->
  exists str,
    Relayer.getNonce s addr = NonceOk addr str /\
    StringToBigInt str = Some (nonces s a) /\
    normalize_big (JStr str) = Some (nonces s a).
Proof.
  intro Ha. unfold Relayer.getNonce. rewrite Ha.
  exists (Z_to_string (nonces s a)).
  split; [reflexivity|].
  split; apply StringToBigInt_Z_to_string.
Qed.

End Endpoints.

End MoreProofs.

(** * Concrete runs: witnesses of the hypotheses of the properties above,
    and counterexamples. *)
Module Runs.
Import Escrow Relayer Observe Demo EscrowProofs RelayerProofs MoreProofs.
Local Open Scope string_scope.

(** C3 at a concrete input: once Alice's session 0x51 is settled, a second
    submission of the same intent is rejected with "Already settled". *)
Lemma session_settled_once_witness :
  snd (exec_tx escrow_addr service_addr demo_state tx1) = Success /\
  status after_first = NOT_ENTERED /\ abi_ok (CExecute intent1 "ai") = true /\
  1600 <= deadline intent1 /\ settledSessions after_first (sessionId intent1) = true /\
  exec_tx escrow_addr service_addr after_first
    (mkTx relayer_addr 1600 (CExecute intent1 "ai"))
  = (after_first, Reverted "Already settled").
Proof.
  split; [vm_compute; reflexivity|].
  split; [vm_compute; reflexivity|].
  split; [reflexivity|].
  split; [cbn; lia|].
  split; [vm_compute; reflexivity|].
  apply (proj1 (proj2 (session_settled_once escrow_addr service_addr)));
    [vm_compute; reflexivity | reflexivity | cbn; lia | vm_compute; reflexivity].
Defined.

(** C8 at a concrete input: Alice's intent is accepted at time 2000 (its
    deadline) and rejected at time 2001. *)
Lemma deadline_inclusive_witness :
  status demo_state = NOT_ENTERED /\ abi_ok (CExecute intent1 "ai") = true /\
  settledSessions demo_state (sessionId intent1) = false /\ sig_ok intent1 /\
  nonce intent1 = nonces demo_state (payer intent1) /\
  nonces demo_state (payer intent1) + 1 <= UINT256_MAX /\
  amount intent1 <= escrowBalances demo_state (payer intent1) /\
  tok_transfer (usdc demo_state) escrow_addr service_addr (amount intent1)
    = Some demo_paid /\
  exec_tx escrow_addr service_addr demo_state
    (mkTx relayer_addr (deadline intent1) (CExecute intent1 "ai"))
  = (settle_post demo_state intent1 demo_paid, Success) /\
  exec_tx escrow_addr service_addr demo_state
    (mkTx relayer_addr (deadline intent1 + 1) (CExecute intent1 "ai"))
  = (demo_state, Reverted "Intent expired").
Proof.
  assert (Hmax : nonces demo_state (payer intent1) + 1 <= UINT256_MAX)
    by (unfold UINT256_MAX; cbn; lia).
  assert (Hbal : amount intent1 <= escrowBalances demo_state (payer intent1))
    by (cbn; lia).
  refine (conj eq_refl (conj eq_refl (conj eq_refl (conj eq_refl
            (conj eq_refl (conj Hmax (conj Hbal (conj eq_refl _)))))))).
  apply (deadline_inclusive escrow_addr service_addr demo_state relayer_addr
           intent1 "ai" demo_paid); try reflexivity; assumption.
Defined.

(** C9 at a concrete input: the frame of Alice's settlement. *)
Lemma state_change_frame_witness :
  exec_tx escrow_addr service_addr demo_state tx1 = (after_first, Success) /\
  escrowBalances after_first alice = escrowBalances demo_state alice - 100 /\
  nonces after_first alice = nonces demo_state alice + 1 /\
  settledSessions after_first session1 = true /\
  (forall a, a <> alice ->
     escrowBalances after_first a = escrowBalances demo_state a /\
     nonces after_first a = nonces demo_state a) /\
  (forall sid, sid <> session1 ->
     settledSessions after_first sid = settledSessions demo_state sid).
Proof.
  assert (E : exec_tx escrow_addr service_addr demo_state tx1
              = (after_first, Success)) by (vm_compute; reflexivity).
  split; [exact E|].
  exact (proj1 (state_change_frame escrow_addr service_addr)
           demo_state 1500 relayer_addr intent1 "ai" after_first E).
Defined.







(** C6 fails: the log of Alice's settlement.  The nonce and session writes
    come before the balance check. *)
Lemma settle_writes_before_balance_check :
  exec_log escrow_addr service_addr demo_state tx1 =
  [EvCheck "ReentrancyGuard: reentrant call"; EvWriteStatus;
   EvCheck "Intent expired"; EvCheck "Already settled";
   EvCheck "Invalid signature"; EvCheck "Invalid nonce";
   EvWriteNonce alice; EvWriteSettled session1; EvCheck "Insufficient balance";
   EvWriteBalance alice; EvTransfer escrow_addr service_addr 100;
   EvEmit "PaymentExecuted"; EvWriteStatus] /\
  checks_then_effects (exec_log escrow_addr service_addr demo_state tx1) = false.
Proof.
  split; vm_compute; reflexivity.
Defined.

(** The deployment invariant on a concrete run: deployed with a non-zero
    token address, the contract settles Alice's intent and is idle after. *)
Lemma deployed_guard_idle_witness :
  constructor 1 service_addr (usdc demo_state)
    = @ROk usdc_balances unit tt (init_state (usdc demo_state)) /\
  status (snd (run escrow_addr service_addr (init_state (usdc demo_state)) [tx1]))
    = NOT_ENTERED.
Proof.
  assert (E : constructor 1 service_addr (usdc demo_state)
              = @ROk usdc_balances unit tt (init_state (usdc demo_state)))
    by reflexivity.
  split; [exact E|].
  exact (proj2 (proj2 (proj2 (proj2
           (deployed_guard_idle escrow_addr service_addr 1 (usdc demo_state)
              (init_state (usdc demo_state)) [tx1] E))))).
Defined.

(** The guard at a concrete input: Alice's settlement submitted while a
    call is in progress. *)
Lemma reentrant_call_reverts_witness :
  dispatch escrow_addr service_addr tx1
    (mkState (escrowBalances demo_state) (nonces demo_state)
             (settledSessions demo_state) ENTERED (usdc demo_state))
  = ([EvCheck "ReentrancyGuard: reentrant call"],
     @RRevert usdc_balances unit "ReentrancyGuard: reentrant call").
Proof.
  apply reentrant_call_reverts; reflexivity.
Defined.

(** Alice deposits 0, and withdraws 0. *)
Lemma zero_amount_rejected_witness :
  exec_tx escrow_addr service_addr demo_state (mkTx alice 1500 (CDeposit 0))
    = (demo_state, Reverted "Amount must be > 0") /\
  exec_tx escrow_addr service_addr demo_state (mkTx alice 1500 (CWithdraw 0))
    = (demo_state, Reverted "Amount must be > 0").
Proof.
  apply zero_amount_rejected; vm_compute; lia.
Defined.

(** Alice withdraws 2000 with 1000 in escrow. *)
Lemma withdraw_above_balance_witness :
  exec_tx escrow_addr service_addr demo_state (mkTx alice 1500 (CWithdraw 2000))
    = (demo_state, Reverted "Insufficient balance").
Proof.
  apply withdraw_above_balance;
    [vm_compute; lia | unfold UINT256_MAX; lia | vm_compute; reflexivity].
Defined.

(** Alice deposits 1 on top of an escrow balance of [type(uint256).max]. *)
Lemma deposit_overflow_reverts_witness :
  exec_tx escrow_addr service_addr full_state (mkTx alice 1500 (CDeposit 1))
    = (full_state, Reverted "Panic(0x11)").
Proof.
  apply (deposit_overflow_reverts escrow_addr service_addr full_state alice 1500 1
           overflow_pulled);
    [vm_compute; lia | unfold UINT256_MAX; lia | reflexivity
    | unfold UINT256_MAX; simpl; lia].
Defined.

(** Alice deposits 200 and withdraws them. *)
Lemma deposit_withdraw_roundtrip_witness :
  exists s2,
    exec_tx escrow_addr service_addr deposited_state (mkTx alice 1600 (CWithdraw 200))
      = (s2, Success) /\
    (forall a, escrowBalances s2 a = escrowBalances funded_state a) /\
    nonces s2 = nonces funded_state /\
    settledSessions s2 = settledSessions funded_state /\ usdc s2 = refunded.
Proof.
  apply (deposit_withdraw_roundtrip escrow_addr service_addr funded_state alice
           1500 1600 200 deposited_state refunded);
    [cbn; lia | vm_compute; reflexivity | reflexivity].
Defined.

(** Alice's intent for 0. *)
Lemma zero_amount_settles_witness :
  exists s',
    exec_tx escrow_addr service_addr demo_state
      (mkTx relayer_addr 1500 (CExecute (mkIntent alice session1 0 2000 0 alice) "ai"))
      = (s', Success) /\
    (forall a, escrowBalances s' a = escrowBalances demo_state a) /\
    nonces s' alice = nonces demo_state alice + 1 /\
    settledSessions s' session1 = true.
Proof.
  apply (zero_amount_settles escrow_addr service_addr demo_state 1500 relayer_addr
           (mkIntent alice session1 0 2000 0 alice) "ai" zero_paid);
    [reflexivity | reflexivity | vm_compute; lia | simpl; lia | reflexivity
    | vm_compute; reflexivity | reflexivity | unfold UINT256_MAX; simpl; lia
    | cbn; lia | reflexivity].
Defined.

(** After Alice's settlement and a withdrawal of 100, her intent for
    another session with the same nonce 0 is rejected. *)
Lemma nonce_replay_rejected_witness :
  exec_tx escrow_addr service_addr
    (snd (run escrow_addr service_addr after_first [mkTx alice 1550 (CWithdraw 100)]))
    (mkTx relayer_addr 1600 (CExecute (mkIntent alice 82 10 2000 0 alice) "ai"))
  = (snd (run escrow_addr service_addr after_first [mkTx alice 1550 (CWithdraw 100)]),
     Reverted "Invalid nonce").
Proof.
  apply (nonce_replay_rejected escrow_addr service_addr demo_state 1500 relayer_addr
           intent1 "ai");
    [vm_compute; reflexivity | reflexivity | reflexivity | reflexivity
    | simpl; lia | vm_compute; reflexivity | vm_compute; reflexivity].
Defined.

(** Alice's intent signed by address 5, and with the malformed signature 0. *)
Lemma bad_signature_rejected_witness :
  exec_tx escrow_addr service_addr demo_state
    (mkTx relayer_addr 1500 (CExecute (mkIntent alice session1 100 2000 0 5) "ai"))
    = (demo_state, Reverted "Invalid signature") /\
  exec_tx escrow_addr service_addr demo_state
    (mkTx relayer_addr 1500 (CExecute (mkIntent alice session1 100 2000 0 0) "ai"))
    = (demo_state, Reverted "ECDSAInvalidSignature").
Proof.
  split.
  - apply (proj1 (bad_signature_rejected escrow_addr service_addr demo_state 1500
                    relayer_addr (mkIntent alice session1 100 2000 0 5) "ai"
                    eq_refl ltac:(vm_compute; lia) ltac:(simpl; lia) eq_refl) 5);
      [vm_compute; reflexivity | vm_compute; lia].
  - apply (proj2 (bad_signature_rejected escrow_addr service_addr demo_state 1500
                    relayer_addr (mkIntent alice session1 100 2000 0 0) "ai"
                    eq_refl ltac:(vm_compute; lia) ltac:(simpl; lia) eq_refl)
             InvalidSignature).
    vm_compute; reflexivity.
Defined.

(** Alice's intent for 2000 with 1000 in escrow. *)
Lemma execute_insufficient_rolls_back_witness :
  exec_tx escrow_addr service_addr demo_state
    (mkTx relayer_addr 1500 (CExecute (mkIntent alice session1 2000 2000 0 alice) "ai"))
    = (demo_state, Reverted "Insufficient balance").
Proof.
  apply execute_insufficient_rolls_back;
    [reflexivity | vm_compute; lia | simpl; lia | reflexivity
    | vm_compute; reflexivity | reflexivity | unfold UINT256_MAX; simpl; lia
    | cbn; lia].
Defined.

(** The relayer submits Alice's intent at time 1500. *)
Lemma relayer_submits_checked_intents_witness :
  amount intent1 <= escrowBalances demo_state (payer intent1) /\
  settledSessions demo_state (sessionId intent1) = false /\
  abi_ok (CExecute intent1 "ai") = true.
Proof.
  assert (E : executePayment escrow_addr service_addr relayer_addr 1500 demo_state
                (request (JNum 100) (JNum 2000) "0x51")
              = ([ReadBalance alice; ReadSettled session1; Submit intent1 "ai"],
                 RSuccess 100 (JStr "ai") JUndefined, after_first))
    by (vm_compute; reflexivity).
  exact (proj2 (relayer_submits_checked_intents escrow_addr service_addr
                  relayer_addr 1500 _ _ _ _ _ intent1 "ai" E
                  (or_intror (or_intror (or_introl eq_refl))))).
Defined.

(** Alice's nonce after her settlement, as the endpoint renders it. *)
Lemma getNonce_roundtrip_witness :
  Relayer.getNonce after_first "0xa1" = NonceOk "0xa1" "1" /\
  exists str,
    Relayer.getNonce after_first "0xa1" = NonceOk "0xa1" str /\
    StringToBigInt str = Some (nonces after_first alice) /\
    normalize_big (JStr str) = Some (nonces after_first alice).
Proof.
  split; [vm_compute; reflexivity|].
  apply getNonce_roundtrip; reflexivity.
Defined.

End Runs.
